(** * SignalRWebApp: the hub client page ([src/app/page.tsx])

    A shallow embedding of the [SignalRClient] page component: the
    presentation mapping ([getStatusIcon], [getStatusColor]), the inbound
    update handler with its bounded log buffer, and the connection
    life cycle ([connectToHub], [disconnectFromHub], the hub callbacks).

    Conventions.
    - A JavaScript string is a [string] whose characters are the code
      units U+0000 .. U+00FF.
    - React state is a record; a setter replaces one field.
    - An [async] function is cut at its [await]: the part before it runs
      when the function is called, the part after it runs when the awaited
      promise settles (events [StartResolved], [StartRejected],
      [StopResolved], [StopRejected]).
    - The SignalR library is outside the repository.  What the page asks of
      it ([build], [start], [stop]) is recorded in the list of hubs; what it
      reports back arrives as events, in any order.
    - The markup and the [useEffect] clean-up that runs when the page is
      unmounted are left out, except for the conditions under which the
      buttons and inputs can be used. *)

From Stdlib Require Import Ascii NArith QArith.
From stdpp Require Import gmap strings list fin_maps pretty.

#[local] Set Warnings "-register-all".
#[local] Open Scope string_scope.
#[local] Open Scope nat_scope.

(** ** JavaScript strings *)

Module JsString.

(** Code units in U+0000 .. U+00FF that [String.prototype.trim] strips:
    TAB, LF, VT, FF, CR, SPACE and NO-BREAK SPACE. *)
Definition is_whitespace (a : ascii) : bool :=
  let n := N_of_ascii a in
  ((9 <=? n) && (n <=? 13) || (n =? 32) || (n =? 160))%N.

Fixpoint trimStart (s : string) : string :=
  match s with
  | EmptyString => EmptyString
  | String a s' => if is_whitespace a then trimStart s' else s
  end.

Fixpoint trimEnd (s : string) : string :=
  match s with
  | EmptyString => EmptyString
  | String a s' =>
      match trimEnd s' with
      | EmptyString => if is_whitespace a then EmptyString else String a EmptyString
      | r => String a r
      end
  end.

Definition trim (s : string) : string := trimEnd (trimStart s).

(** Every character of [s] is white space (the empty string included). *)
Fixpoint blank (s : string) : bool :=
  match s with
  | EmptyString => true
  | String a s' => is_whitespace a && blank s'
  end.

(** Truthiness of a string: only the empty string is falsy. *)
Definition truthy (s : string) : bool :=
  match s with EmptyString => false | String _ _ => true end.

(** [toLowerCase] on one code unit: A-Z, and the Latin-1 capitals
    U+00C0 .. U+00DE except the multiplication sign U+00D7. *)
Definition lower_unit (a : ascii) : ascii :=
  let n := N_of_ascii a in
  if ((65 <=? n) && (n <=? 90) || (192 <=? n) && (n <=? 214)
      || (216 <=? n) && (n <=? 222))%N
  then ascii_of_N (n + 32) else a.

Fixpoint toLowerCase (s : string) : string :=
  match s with
  | EmptyString => EmptyString
  | String a s' => String (lower_unit a) (toLowerCase s')
  end.

(** A [case] group of a [switch] on a string: strict equality with one of
    the labels. *)
Definition case_of (key : string) (labels : list string) : bool :=
  existsb (String.eqb key) labels.

End JsString.

(** ** Presentation mapping *)

Inductive IconComponent := CheckCircle | XCircle | AlertCircle.

(** The JSX element an icon function returns: the component and its
    [className]. *)
Record Icon := { component : IconComponent; className : string }.

Definition getStatusIcon (status : string) : Icon :=
  let key := JsString.toLowerCase status in
  if JsString.case_of key ["completed"; "success"; "online"; "running"; "active"]
  then {| component := CheckCircle; className := "h-4 w-4 text-green-500" |}
  else if JsString.case_of key ["error"; "failed"; "offline"; "emergency"]
  then {| component := XCircle; className := "h-4 w-4 text-red-500" |}
  else if JsString.case_of key ["warning"; "idle"]
  then {| component := AlertCircle; className := "h-4 w-4 text-yellow-500" |}
  else {| component := AlertCircle; className := "h-4 w-4 text-yellow-500" |}.

Definition getStatusColor (status : string) : string :=
  let key := JsString.toLowerCase status in
  if JsString.case_of key ["completed"; "success"; "online"; "running"; "active"]
  then "bg-green-100 text-green-800"
  else if JsString.case_of key ["error"; "failed"; "offline"; "emergency"]
  then "bg-red-100 text-red-800"
  else if JsString.case_of key ["processing"; "warning"; "inproduction"]
  then "bg-blue-100 text-blue-800"
  else if JsString.case_of key ["idle"]
  then "bg-yellow-100 text-yellow-800"
  else "bg-gray-100 text-gray-800".

(** ** JavaScript values

    The argument of a hub invocation is what the JSON protocol decoded:
    [null], a boolean, a number, a string, an array or an object; with no
    argument sent the handler's parameter is [undefined].  A number is kept
    as the rational it denotes.  An object is the finite map of its own
    properties. *)

Inductive JsValue :=
| JUndefined
| JNull
| JBool (b : bool)
| JNum (q : Q)
| JStr (s : string)
| JArr (items : list JsValue)
| JObj (props : gmap string JsValue).

Inductive Exn := TypeError.

Module Js.

(** [ToBoolean]. *)
Definition truthy (v : JsValue) : bool :=
  match v with
  | JUndefined | JNull => false
  | JBool b => b
  | JNum q => negb (Qnum q =? 0)%Z
  | JStr s => JsString.truthy s
  | JArr _ | JObj _ => true
  end.

(** [v.data]: a [TypeError] on [undefined] and [null]; an object's own
    property, [undefined] when it has none; [undefined] on the other
    values, whose wrappers and prototypes define no [data]. *)
Definition get_data (v : JsValue) : Exn + JsValue :=
  match v with
  | JUndefined | JNull => inl TypeError
  | JObj props => inr (default JUndefined (props !! "data"))
  | JBool _ | JNum _ | JStr _ | JArr _ => inr JUndefined
  end.

(** Properties keyed by index, ["0"], ["1"], ... *)
Definition index_props (items : list JsValue) : gmap string JsValue :=
  list_to_map (imap (λ i v, (pretty i, v)) items).

Fixpoint units (s : string) : list JsValue :=
  match s with
  | EmptyString => []
  | String a s' => JStr (String a EmptyString) :: units s'
  end.

(** The own enumerable properties an object spread [{...v}] copies. *)
Definition own_props (v : JsValue) : gmap string JsValue :=
  match v with
  | JObj props => props
  | JArr items => index_props items
  | JStr s => index_props (units s)
  | JUndefined | JNull | JBool _ | JNum _ => ∅
  end.

End Js.

(** ** The SignalR side *)

Module SignalR.

Inductive LogLevel :=
| Trace | Debug | Information | Warning | Error | Critical | None.

(** [HubConnectionState] of the library. *)
Inductive HubConnectionState :=
| Disconnected | Connecting | Connected | Disconnecting | Reconnecting.

(** A connection made by [HubConnectionBuilder]: the options the builder
    was given, and the state the connection is in. *)
Record HubConnection := {
  url : string;
  withCredentials : bool;
  automaticReconnect : bool;
  logging : LogLevel;
  state : HubConnectionState
}.

Definition set_state (st : HubConnectionState) (c : HubConnection) : HubConnection :=
  {| url := url c; withCredentials := withCredentials c;
     automaticReconnect := automaticReconnect c; logging := logging c;
     state := st |}.


End SignalR.

(** ** Page state *)

(** A connection is named by its handle: its position in the list of the
    connections built so far. *)
Abbreviation Handle := nat.

Inductive ConnectionStatus := disconnected | connecting | connected.

#[global] Instance ConnectionStatus_eq_dec : EqDecision ConnectionStatus.
Proof. solve_decision. Defined.

(** A log entry is the object the handler builds. *)
Abbreviation MachineLog := (gmap string JsValue).

(** The [useState] cells and the [useRef] cell of [SignalRClient]. *)
Record Page := {
  connection : option Handle;
  isConnected : bool;
  userId : string;
  serverUrl : string;
  logs : list MachineLog;
  connectionStatus : ConnectionStatus;
  connectionRef : option Handle
}.

Inductive ConsoleEntry :=
| log_received (response : JsValue)
| log_closed
| log_reconnecting
| log_reconnected
| log_connected
| error_connecting
| log_disconnected
| error_disconnecting.

(** The page together with what surrounds it: the connections built so far,
    the [connectToHub] calls waiting at [await newConnection.start()], the
    [disconnectFromHub] calls waiting at [await connectionRef.current.stop()],
    the alerts shown and the console. *)
Record Sys := {
  page : Page;
  hubs : list SignalR.HubConnection;
  starting : list Handle;
  stopping : list Handle;
  alerts : list string;
  console : list ConsoleEntry
}.

Definition initial_page : Page := {|
  connection := None;
  isConnected := false;
  userId := "";
  serverUrl := "https://mms-api-fbabadckhjdybmg7.westus2-01.azurewebsites.net/machineHub";
  logs := [];
  connectionStatus := disconnected;
  connectionRef := None
|}.

Definition initial : Sys := {|
  page := initial_page; hubs := []; starting := []; stopping := [];
  alerts := []; console := []
|}.

(** ** Handlers as state transformers *)

Definition M (A : Type) : Type := Sys → A * Sys.

#[global] Instance M_ret : MRet M := λ A a s, (a, s).
#[global] Instance M_bind : MBind M := λ A B f m s, f (fst (m s)) (snd (m s)).

(** Run a handler for its effect. *)
Definition exec {A} (m : M A) (s : Sys) : Sys := snd (m s).

Definition get_page : M Page := λ s, (page s, s).

Definition modify_page (f : Page → Page) : M unit := λ s,
  (tt, {| page := f (page s); hubs := hubs s; starting := starting s;
          stopping := stopping s; alerts := alerts s; console := console s |}).

(** The React setters and the assignment to [connectionRef.current]. *)
Definition setConnection (c : option Handle) : M unit :=
  modify_page (λ p,
    {| connection := c; isConnected := isConnected p; userId := userId p;
       serverUrl := serverUrl p; logs := logs p;
       connectionStatus := connectionStatus p; connectionRef := connectionRef p |}).

Definition setIsConnected (b : bool) : M unit :=
  modify_page (λ p,
    {| connection := connection p; isConnected := b; userId := userId p;
       serverUrl := serverUrl p; logs := logs p;
       connectionStatus := connectionStatus p; connectionRef := connectionRef p |}).

Definition setUserId (v : string) : M unit :=
  modify_page (λ p,
    {| connection := connection p; isConnected := isConnected p; userId := v;
       serverUrl := serverUrl p; logs := logs p;
       connectionStatus := connectionStatus p; connectionRef := connectionRef p |}).

Definition setServerUrl (v : string) : M unit :=
  modify_page (λ p,
    {| connection := connection p; isConnected := isConnected p; userId := userId p;
       serverUrl := v; logs := logs p;
       connectionStatus := connectionStatus p; connectionRef := connectionRef p |}).

(** [setLogs] takes the updater function, as in [setLogs((prevLogs) => ...)];
    [setLogs([])] is [setLogs (λ _, [])]. *)
Definition setLogs (f : list MachineLog → list MachineLog) : M unit :=
  modify_page (λ p,
    {| connection := connection p; isConnected := isConnected p; userId := userId p;
       serverUrl := serverUrl p; logs := f (logs p);
       connectionStatus := connectionStatus p; connectionRef := connectionRef p |}).

Definition setConnectionStatus (st : ConnectionStatus) : M unit :=
  modify_page (λ p,
    {| connection := connection p; isConnected := isConnected p; userId := userId p;
       serverUrl := serverUrl p; logs := logs p;
       connectionStatus := st; connectionRef := connectionRef p |}).

Definition set_connectionRef (c : option Handle) : M unit :=
  modify_page (λ p,
    {| connection := connection p; isConnected := isConnected p; userId := userId p;
       serverUrl := serverUrl p; logs := logs p;
       connectionStatus := connectionStatus p; connectionRef := c |}).

Definition alert (msg : string) : M unit := λ s,
  (tt, {| page := page s; hubs := hubs s; starting := starting s;
          stopping := stopping s; alerts := alerts s ++ [msg]; console := console s |}).

Definition console_out (e : ConsoleEntry) : M unit := λ s,
  (tt, {| page := page s; hubs := hubs s; starting := starting s;
          stopping := stopping s; alerts := alerts s; console := console s ++ [e] |}).

(** [new HubConnectionBuilder()...build()]: one more connection, not yet
    started; its handle is returned. *)
Definition build (c : SignalR.HubConnection) : M Handle := λ s,
  (length (hubs s),
   {| page := page s; hubs := hubs s ++ [c]; starting := starting s;
      stopping := stopping s; alerts := alerts s; console := console s |}).

Definition set_hub_state (h : Handle) (st : SignalR.HubConnectionState) : M unit := λ s,
  (tt, {| page := page s; hubs := alter (SignalR.set_state st) h (hubs s);
          starting := starting s; stopping := stopping s;
          alerts := alerts s; console := console s |}).

(** [await h.start()]: the request goes out and the caller is suspended. *)
Definition start (h : Handle) : M unit := λ s,
  (tt, {| page := page s;
          hubs := alter (SignalR.set_state SignalR.Connecting) h (hubs s);
          starting := starting s ++ [h]; stopping := stopping s;
          alerts := alerts s; console := console s |}).

(** [await h.stop()]: the close is requested and the caller is suspended. *)
Definition stop (h : Handle) : M unit := λ s,
  (tt, {| page := page s;
          hubs := alter (SignalR.set_state SignalR.Disconnecting) h (hubs s);
          starting := starting s; stopping := stopping s ++ [h];
          alerts := alerts s; console := console s |}).

(** One suspended caller is resumed. *)
Fixpoint remove_one (h : Handle) (l : list Handle) : list Handle :=
  match l with
  | [] => []
  | h' :: l' => if decide (h' = h) then l' else h' :: remove_one h l'
  end.

Definition resume_start (h : Handle) : M unit := λ s,
  (tt, {| page := page s; hubs := hubs s;
          starting := remove_one h (starting s); stopping := stopping s;
          alerts := alerts s; console := console s |}).

Definition resume_stop (h : Handle) : M unit := λ s,
  (tt, {| page := page s; hubs := hubs s;
          starting := starting s; stopping := remove_one h (stopping s);
          alerts := alerts s; console := console s |}).

(** ** The page's functions *)

(** [connectToHub], up to [await newConnection.start()].  The four
    callbacks registered on the new connection are [onReceiveMachineUpdate],
    [onclose], [onreconnecting] and [onreconnected] below; they refer to the
    setters only, so they are the same for every connection. *)
Definition connectToHub : M unit :=
  p ← get_page;
  if negb (JsString.truthy (JsString.trim (userId p))) then
    alert "Please enter a valid User ID"
  else
    setConnectionStatus connecting;;
    newConnection ← build
      {| SignalR.url := serverUrl p ++ "?user_id=" ++ userId p;
         SignalR.withCredentials := false;
         SignalR.automaticReconnect := true;
         SignalR.logging := SignalR.Information;
         SignalR.state := SignalR.Disconnected |};
    start newConnection.

(** [connectToHub] after the [await], when [start()] resolved. *)
Definition connectToHub_resolved (newConnection : Handle) : M unit :=
  console_out log_connected;;
  setConnection (Some newConnection);;
  set_connectionRef (Some newConnection);;
  setIsConnected true;;
  setConnectionStatus connected.

(** [connectToHub] after the [await], when [start()] rejected: the [catch]
    block. *)
Definition connectToHub_rejected : M unit :=
  console_out error_connecting;;
  setConnectionStatus disconnected;;
  alert "Failed to connect to SignalR hub. Please check the server URL and try again.".

(** The handler of ["ReceiveMachineUpdate"]; [now] is what
    [new Date().toISOString()] returns when the handler runs.  The result
    tells whether the handler returned or threw. *)
Definition onReceiveMachineUpdate (response : JsValue) (now : string) : M (Exn + unit) :=
  console_out (log_received response);;
  if Js.truthy response then
    match Js.get_data response with
    | inl e => mret (inl e)
    | inr data =>
        if Js.truthy data then
          let log : MachineLog := <["timestamp" := JStr now]> (Js.own_props data) in
          setLogs (λ prevLogs, log :: take 49 prevLogs);;
          mret (inr tt)
        else mret (inr tt)
    end
  else mret (inr tt).

Definition onclose : M unit :=
  console_out log_closed;;
  setIsConnected false;;
  setConnectionStatus disconnected.

Definition onreconnecting : M unit :=
  console_out log_reconnecting;;
  setConnectionStatus connecting.

Definition onreconnected : M unit :=
  console_out log_reconnected;;
  setIsConnected true;;
  setConnectionStatus connected.

(** [disconnectFromHub], up to [await connectionRef.current.stop()]. *)
Definition disconnectFromHub : M unit :=
  p ← get_page;
  match connectionRef p with
  | Some h => stop h
  | None => mret tt
  end.

(** The [finally] block of [disconnectFromHub]. *)
Definition disconnectFromHub_finally : M unit :=
  setConnection None;;
  set_connectionRef None;;
  setIsConnected false;;
  setConnectionStatus disconnected.

(** [disconnectFromHub] after the [await], when [stop()] resolved. *)
Definition disconnectFromHub_resolved : M unit :=
  console_out log_disconnected;;
  disconnectFromHub_finally.

(** [disconnectFromHub] after the [await], when [stop()] rejected: the
    [catch] block, then [finally]. *)
Definition disconnectFromHub_rejected : M unit :=
  console_out error_disconnecting;;
  disconnectFromHub_finally.

Definition clearLogs : M unit := setLogs (λ _, []).

(** ** What is rendered: which controls can be used *)

(** The Connect button is rendered when [!isConnected] and is disabled
    while [connectionStatus === "connecting"]. *)
Definition connect_button_enabled (p : Page) : bool :=
  negb (isConnected p)
  && negb (bool_decide (connectionStatus p = connecting)).

(** The Disconnect button is rendered in the other branch. *)
Definition disconnect_button_enabled (p : Page) : bool := isConnected p.

(** The Clear Logs button is rendered when [logs.length > 0]. *)
Definition clear_button_enabled (p : Page) : bool := bool_decide (0 < length (logs p)).

(** Both inputs are disabled while [isConnected]. *)
Definition inputs_enabled (p : Page) : bool := negb (isConnected p).

(** ** Events *)

Inductive Event :=
(** the user, through what is rendered *)
| TypeUserId (v : string)
| TypeServerUrl (v : string)
| ClickConnect
| ClickDisconnect
| ClickClearLogs
(** the page's functions called as they are, whatever is rendered *)
| CallConnectToHub
| CallDisconnectFromHub
| CallClearLogs
(** an awaited promise settles *)
| StartResolved (h : Handle)
| StartRejected (h : Handle)
| StopResolved (h : Handle)
| StopRejected (h : Handle)
(** the library calls back on connection [h] *)
| Invoke (h : Handle) (method : string) (response : JsValue) (now : string)
| Closed (h : Handle)
| HubReconnecting (h : Handle)
| HubReconnected (h : Handle).

Definition get_sys : M Sys := λ s, (s, s).

Definition when (b : bool) (m : M unit) : M unit := if b then m else mret tt.

Definition hub_exists (h : Handle) (s : Sys) : bool := bool_decide (h < length (hubs s)).

(** What one event does.  A control that is not rendered or is disabled
    does nothing; a promise settles only for a suspended caller; the
    library calls back only on a connection that was built, and runs the
    update handler only for the method name it was registered under.  An
    exception thrown by the update handler stays inside the library. *)
Definition handle (ev : Event) : M unit :=
  s ← get_sys;
  match ev with
  | TypeUserId v => when (inputs_enabled (page s)) (setUserId v)
  | TypeServerUrl v => when (inputs_enabled (page s)) (setServerUrl v)
  | ClickConnect => when (connect_button_enabled (page s)) connectToHub
  | ClickDisconnect => when (disconnect_button_enabled (page s)) disconnectFromHub
  | ClickClearLogs => when (clear_button_enabled (page s)) clearLogs
  | CallConnectToHub => connectToHub
  | CallDisconnectFromHub => disconnectFromHub
  | CallClearLogs => clearLogs
  | StartResolved h =>
      when (bool_decide (h ∈ starting s))
        (resume_start h;; set_hub_state h SignalR.Connected;;
         connectToHub_resolved h)
  | StartRejected h =>
      when (bool_decide (h ∈ starting s))
        (resume_start h;; set_hub_state h SignalR.Disconnected;;
         connectToHub_rejected)
  | StopResolved h =>
      when (bool_decide (h ∈ stopping s))
        (resume_stop h;; set_hub_state h SignalR.Disconnected;;
         disconnectFromHub_resolved)
  | StopRejected h =>
      when (bool_decide (h ∈ stopping s))
        (resume_stop h;; disconnectFromHub_rejected)
  | Invoke h method response now =>
      when (hub_exists h s && String.eqb method "ReceiveMachineUpdate")
        (onReceiveMachineUpdate response now;; mret tt)
  | Closed h =>
      when (hub_exists h s) (set_hub_state h SignalR.Disconnected;; onclose)
  | HubReconnecting h =>
      when (hub_exists h s) (set_hub_state h SignalR.Reconnecting;; onreconnecting)
  | HubReconnected h =>
      when (hub_exists h s) (set_hub_state h SignalR.Connected;; onreconnected)
  end.

Definition step (ev : Event) (s : Sys) : Sys := exec (handle ev) s.

Fixpoint run (evs : list Event) (s : Sys) : Sys :=
  match evs with
  | [] => s
  | ev :: evs' => run evs' (step ev s)
  end.

(** The update handler run on a sequence of inbound events, each with its
    arrival stamp. *)
Fixpoint deliver (evs : list (JsValue * string)) (s : Sys) : Sys :=
  match evs with
  | [] => s
  | (response, now) :: evs' => deliver evs' (exec (onReceiveMachineUpdate response now) s)
  end.



(** The labels of the three [case] groups of [getStatusIcon]. *)
Definition icon_vocabulary : list string :=
  ["completed"; "success"; "online"; "running"; "active";
   "error"; "failed"; "offline"; "emergency"; "warning"; "idle"].

(** The guard of the update handler, [response && response.data]. *)
Definition has_envelope (response : JsValue) : bool :=
  Js.truthy response
  && match Js.get_data response with
     | inr data => Js.truthy data
     | inl _ => false
     end.

(** The buffer [buf] lists accepted events of [evs] from the latest arrival
    to the earliest: entry [i] is the entry built from the event that arrived
    at position [ps !! i] of [evs], and the positions strictly decrease. *)
Definition newest_first (evs : list (JsValue * string)) (buf : list MachineLog) : Prop :=
  ∃ ps : list nat,
    length ps = length buf
    ∧ (∀ i p q, ps !! i = Some p → ps !! S i = Some q → q < p)
    ∧ (∀ i p, ps !! i = Some p →
         ∃ response now data,
           evs !! p = Some (response, now)
           ∧ has_envelope response = true
           ∧ Js.get_data response = inr data
           ∧ buf !! i = Some (<["timestamp" := JStr now]> (Js.own_props data))).

(** Whenever the status is [connected], [isConnected] is set: the two
    setters are always called together. *)
Definition status_inv (s : Sys) : Prop :=
  connectionStatus (page s) = connected → isConnected (page s) = true.

(** The handles in use name connections that were built; a [connectToHub]
    call still waiting for [start()] waits on a connection of its own, which
    is not stored in [connection] or [connectionRef]. *)
Definition handles_inv (s : Sys) : Prop :=
  NoDup (starting s)
  ∧ (∀ h, h ∈ starting s →
       h < length (hubs s)
       ∧ connectionRef (page s) ≠ Some h ∧ connection (page s) ≠ Some h)
  ∧ (∀ h, connectionRef (page s) = Some h → h < length (hubs s))
  ∧ (∀ h, connection (page s) = Some h → h < length (hubs s)).

(** Sample data: a page where the identity ["u1"] was typed, an update as
    the hub sends it (the payload carries a [timestamp] of its own), and a
    payload without the [data] field. *)
Definition page_u1 : Sys := run [TypeUserId "u1"] initial.

Definition update_m1 : JsValue :=
  JObj {[ "data" :=
            JObj (list_to_map [("id", JStr "m1"); ("status", JStr "Online");
                               ("timestamp", JStr "1999-12-31T23:59:59.000Z")]) ]}.

Definition update_no_data : JsValue := JObj {[ "id" := JStr "m1" ]}.

(** The scenario of 51 updates with ids ["1"] to ["51"], update [i] arriving
    with stamp [i]. *)
Definition update_id (i : nat) : JsValue * string :=
  (JObj {[ "data" := JObj {[ "id" := JStr (pretty i) ]} ]}, pretty i).

Definition updates_51 : list (JsValue * string) := update_id <$> seq 1 51.

(** The state of hub [h], if [h] was built. *)
Definition hub_state (h : Handle) (s : Sys) : option SignalR.HubConnectionState :=
  SignalR.state <$> (hubs s !! h).

(** Proof automation: [destruct_sys s] opens the state [s] into its fields,
    [unfold_m] runs the handlers on an opened state down to the record they
    build, and [step_cases] splits on what an event does: the guard of the
    event, the identity check of [connectToHub], the handle test of
    [disconnectFromHub] and the envelope test of the update handler. *)
Ltac unfold_m :=
  cbv beta iota zeta delta
    [exec mbind mret M_bind M_ret when get_sys get_page modify_page
     setConnection setIsConnected setUserId setServerUrl setLogs
     setConnectionStatus set_connectionRef alert console_out build
     set_hub_state start stop resume_start resume_stop
     connectToHub_resolved connectToHub_rejected onclose onreconnecting
     onreconnected disconnectFromHub_finally disconnectFromHub_resolved
     disconnectFromHub_rejected clearLogs fst snd hub_exists
     connect_button_enabled disconnect_button_enabled clear_button_enabled
     inputs_enabled
     page hubs starting stopping alerts console connection isConnected
     userId serverUrl logs connectionStatus connectionRef].

Ltac destruct_sys s :=
  destruct s as [[?conn ?isConn ?uid ?url ?lgs ?status ?ref] ?hbs ?sta ?sto ?als ?con];
  cbn [page hubs starting stopping alerts console connection isConnected
       userId serverUrl logs connectionStatus connectionRef] in *.

Ltac step_cases :=
  unfold step, handle, connectToHub, disconnectFromHub, onReceiveMachineUpdate;
  unfold_m;
  repeat (match goal with
          | |- context [if ?b then _ else _] => destruct b eqn:?
          | |- context [match ?r with Some _ => _ | None => _ end] =>
              destruct r eqn:?
          | |- context [match Js.get_data ?r with _ => _ end] =>
              destruct (Js.get_data r) eqn:?
          end; unfold_m).

(** ** Further parts of the page *)

(** The labels of the four [case] groups of [getStatusColor]. *)
Definition color_vocabulary : list string :=
  ["completed"; "success"; "online"; "running"; "active";
   "error"; "failed"; "offline"; "emergency";
   "processing"; "warning"; "inproduction"; "idle"].

(** The entry the update handler builds for an event that it accepts. *)
Definition record_of (ev : JsValue * string) : option MachineLog :=
  if has_envelope ev.1 then
    match Js.get_data ev.1 with
    | inr data => Some (<["timestamp" := JStr ev.2]> (Js.own_props data))
    | inl _ => None
    end
  else None.

(** What the page passes to [HubConnectionBuilder]: the URL with the user id
    as [user_id], no credentials, automatic reconnect, [Information]
    logging. *)
Definition built_by_page (c : SignalR.HubConnection) : Prop :=
  SignalR.withCredentials c = false
  ∧ SignalR.automaticReconnect c = true
  ∧ SignalR.logging c = SignalR.Information
  ∧ ∃ server uid,
      SignalR.url c = server +:+ "?user_id=" +:+ uid
      ∧ JsString.blank uid = false.




(** The React key of a row of the list, [`${log.id}-${index}`], for an entry
    whose [id] is the string [id]. *)
Definition row_key (id : string) (index : nat) : string :=
  id +:+ "-" +:+ pretty index.

(** No character of [s] is a dash, as in the digits of an index. *)
Fixpoint dash_free (s : string) : bool :=
  match s with
  | EmptyString => true
  | String a s' => negb (Ascii.eqb a "-") && dash_free s'
  end.

(** * Properties *)

(** ** Strings *)

Section Strings.
Import JsString.

Lemma trimStart_blank s : blank s = true → trimStart s = "".
Proof.
  induction s as [|a s IH]; simpl; [done|].
  intros [Ha Hs]%andb_true_iff. rewrite Ha. auto.
Qed.

Lemma trimStart_empty_blank s : trimStart s = "" → blank s = true.
Proof.
  induction s as [|a s IH]; simpl; [done|].
  destruct (is_whitespace a); [auto | discriminate].
Qed.

(** What [trimStart] leaves is empty or starts with a character that is
    not white space. *)
Lemma trimStart_head s a r : trimStart s = String a r → is_whitespace a = false.
Proof.
  induction s as [|b s IH]; simpl; [discriminate|].
  destruct (is_whitespace b) eqn:Hb; [auto|].
  intros [= <- <-]. exact Hb.
Qed.

Lemma trimEnd_empty_head a r : trimEnd (String a r) = "" → is_whitespace a = true.
Proof.
  simpl. destruct (trimEnd r); [|discriminate].
  destruct (is_whitespace a); [done | discriminate].
Qed.

(** [trim] returns the empty string exactly on the blank strings. *)
Lemma trim_empty_iff s : trim s = "" ↔ blank s = true.
Proof.
  unfold trim. split.
  - intros H. apply trimStart_empty_blank.
    destruct (trimStart s) as [|a r] eqn:E; [done|].
    apply trimEnd_empty_head in H.
    apply trimStart_head in E. congruence.
  - intros H. by rewrite (trimStart_blank _ H).
Qed.

Lemma truthy_trim s : truthy (trim s) = negb (blank s).
Proof.
  destruct (blank s) eqn:E.
  - apply trim_empty_iff in E. by rewrite E.
  - destruct (trim s) eqn:T; [|done].
    apply trim_empty_iff in T. congruence.
Qed.

Lemma case_of_elem key labels : case_of key labels = true ↔ key ∈ labels.
Proof.
  unfold case_of. rewrite existsb_exists. split.
  - intros (l & Hin & Heq). apply String.eqb_eq in Heq. subst.
    by apply list_elem_of_In.
  - intros Hin. exists key. split; [by apply list_elem_of_In | apply String.eqb_refl].
Qed.

End Strings.

(** ** Presentation mapping *)

Lemma lower_unit_idem a : JsString.lower_unit (JsString.lower_unit a) = JsString.lower_unit a.
Proof.
  destruct a as [[] [] [] [] [] [] [] []]; reflexivity.
Qed.

Lemma toLowerCase_idem s :
  JsString.toLowerCase (JsString.toLowerCase s) = JsString.toLowerCase s.
Proof.
  induction s as [|a s IH]; simpl; [done|]. by rewrite lower_unit_idem, IH.
Qed.

Lemma case_of_app key l1 l2 :
  JsString.case_of key (l1 ++ l2)%list
  = JsString.case_of key l1 || JsString.case_of key l2.
Proof. unfold JsString.case_of. apply existsb_app. Qed.

Lemma getStatusIcon_default status :
  JsString.case_of (JsString.toLowerCase status) icon_vocabulary = false →
  getStatusIcon status
  = {| component := AlertCircle; className := "h-4 w-4 text-yellow-500" |}.
Proof.
  unfold getStatusIcon, icon_vocabulary.
  change ["completed"; "success"; "online"; "running"; "active";
          "error"; "failed"; "offline"; "emergency"; "warning"; "idle"]
    with (["completed"; "success"; "online"; "running"; "active"]
          ++ ["error"; "failed"; "offline"; "emergency"] ++ ["warning"; "idle"])%list.
  rewrite !case_of_app.
  intros [-> [-> ->]%orb_false_iff]%orb_false_iff. reflexivity.
Qed.

(** C9.  [getStatusIcon] gives the same icon to two statuses that are equal
    up to letter case; a status whose lower-case form is none of the labels
    gets the yellow [AlertCircle], which is also the icon of ["idle"] and of
    ["warning"], so the icons are three and there is no separate icon for an
    unknown status; ["Emergency"] gets the red [XCircle], the icon of
    ["error"]; [getStatusColor "InProduction"] is the blue styling of
    ["processing"], which differs from the green one of ["success"] and from
    the red one of ["error"]. *)
Theorem getStatusIcon_case_insensitive_default :
  (∀ s t, JsString.toLowerCase s = JsString.toLowerCase t →
          getStatusIcon s = getStatusIcon t)
  ∧ (∀ s, getStatusIcon (JsString.toLowerCase s) = getStatusIcon s)
  ∧ (∀ s, JsString.case_of (JsString.toLowerCase s) icon_vocabulary = false →
          getStatusIcon s = getStatusIcon "idle")
  ∧ getStatusIcon "idle" = getStatusIcon "warning"
  ∧ getStatusIcon "idle"
    = {| component := AlertCircle; className := "h-4 w-4 text-yellow-500" |}
  ∧ (∀ s, getStatusIcon s ∈
          [getStatusIcon "success"; getStatusIcon "error"; getStatusIcon "idle"])
  ∧ getStatusIcon "Emergency"
    = {| component := XCircle; className := "h-4 w-4 text-red-500" |}
  ∧ getStatusIcon "Emergency" = getStatusIcon "error"
  ∧ getStatusColor "InProduction" = "bg-blue-100 text-blue-800"
  ∧ getStatusColor "InProduction" = getStatusColor "processing"
  ∧ getStatusColor "InProduction" ≠ getStatusColor "success"
  ∧ getStatusColor "InProduction" ≠ getStatusColor "error".
Proof.
  split_and!; try reflexivity; try discriminate.
  - intros s t H. unfold getStatusIcon. by rewrite H.
  - intros s. unfold getStatusIcon. by rewrite toLowerCase_idem.
  - intros s H. by rewrite (getStatusIcon_default s H).
  - intros s.
    change (getStatusIcon "success")
      with {| component := CheckCircle; className := "h-4 w-4 text-green-500" |}.
    change (getStatusIcon "error")
      with {| component := XCircle; className := "h-4 w-4 text-red-500" |}.
    change (getStatusIcon "idle")
      with {| component := AlertCircle; className := "h-4 w-4 text-yellow-500" |}.
    unfold getStatusIcon. rewrite !elem_of_cons.
    destruct (JsString.case_of _ _); [by left|].
    destruct (JsString.case_of _ _); [by right; left|].
    destruct (JsString.case_of _ _); by right; right; left.
Qed.

Lemma getStatusIcon_case_insensitive_default_witness :
  getStatusIcon "ONLINE" = getStatusIcon "online"
  ∧ getStatusIcon "Maintenance" = getStatusIcon "idle".
Proof.
  split.
  - apply (proj1 getStatusIcon_case_insensitive_default). reflexivity.
  - apply (proj1 (proj2 (proj2 getStatusIcon_case_insensitive_default))).
    reflexivity.
Defined.

(** ** The log buffer: one event *)

(** C10.  [clearLogs] leaves a buffer of length 0 and changes nothing else:
    the connection status, both connection handles, [isConnected], the
    server URL and the user id, the connections, the suspended calls, the
    alerts and the console are what they were. *)
Theorem clearLogs_only_empties_logs (s : Sys) :
  let s' := exec clearLogs s in
  length (logs (page s')) = 0
  ∧ connectionStatus (page s') = connectionStatus (page s)
  ∧ connection (page s') = connection (page s)
  ∧ connectionRef (page s') = connectionRef (page s)
  ∧ isConnected (page s') = isConnected (page s)
  ∧ serverUrl (page s') = serverUrl (page s)
  ∧ userId (page s') = userId (page s)
  ∧ hubs s' = hubs s ∧ starting s' = starting s ∧ stopping s' = stopping s
  ∧ alerts s' = alerts s ∧ console s' = console s.
Proof. cbn. split_and!; reflexivity. Qed.

(** Without the envelope the handler returns without touching anything but
    the console. *)
Lemma onReceiveMachineUpdate_no_envelope response now s :
  has_envelope response = false →
  onReceiveMachineUpdate response now s
  = (inr tt, exec (console_out (log_received response)) s).
Proof.
  unfold has_envelope, onReceiveMachineUpdate. cbn.
  destruct (Js.truthy response) eqn:Ht; [|done].
  destruct (Js.get_data response) as [e|data] eqn:Hd; cbn.
  - destruct response; discriminate.
  - intros ->. reflexivity.
Qed.

Lemma onReceiveMachineUpdate_envelope response now s :
  has_envelope response = true →
  ∃ data, Js.get_data response = inr data
  ∧ onReceiveMachineUpdate response now s
    = (inr tt,
       exec (console_out (log_received response);;
             setLogs (λ prevLogs,
               <["timestamp" := JStr now]> (Js.own_props data) :: take 49 prevLogs)) s).
Proof.
  unfold has_envelope, onReceiveMachineUpdate. cbn.
  destruct (Js.truthy response) eqn:Ht; [|done].
  destruct (Js.get_data response) as [e|data] eqn:Hd; cbn; [done|].
  intros ->. by exists data.
Qed.

(** An object whose [data] field is an object has the envelope. *)
Lemma has_envelope_object props fields :
  props !! "data" = Some (JObj fields) → has_envelope (JObj props) = true.
Proof. intros H. unfold has_envelope. cbn. by rewrite H. Qed.

(** C5.  When the payload is absent ([undefined] or [null]) or has no [data]
    field (reading it gives [undefined], or the field is [null]), the handler
    returns normally, it does not throw, and the page, so the buffer, its
    length and its entries, is unchanged; no connection, suspended call or
    alert changes either.  Only the [console.log] line that opens the handler
    is written. *)
Theorem onReceiveMachineUpdate_drops_missing_envelope (response : JsValue) :
  response = JUndefined ∨ response = JNull
  ∨ Js.get_data response = inr JUndefined ∨ Js.get_data response = inr JNull →
  ∀ now s, ∃ s',
    onReceiveMachineUpdate response now s = (inr tt, s')
    ∧ page s' = page s
    ∧ logs (page s') = logs (page s)
    ∧ length (logs (page s')) = length (logs (page s))
    ∧ hubs s' = hubs s ∧ starting s' = starting s ∧ stopping s' = stopping s
    ∧ alerts s' = alerts s.
Proof.
  intros H now s.
  assert (has_envelope response = false) as Hno.
  { unfold has_envelope.
    destruct H as [-> | [-> | [H | H]]]; [done | done | |];
      rewrite H; cbn; apply andb_false_r. }
  rewrite (onReceiveMachineUpdate_no_envelope _ now s Hno).
  eexists. split; [reflexivity|]. cbn. split_and!; reflexivity.
Qed.

Lemma onReceiveMachineUpdate_drops_missing_envelope_witness :
  ∃ s', onReceiveMachineUpdate update_no_data "2024-05-01T10:00:00.000Z" page_u1
        = (inr tt, s')
  ∧ logs (page s') = logs (page page_u1).
Proof.
  destruct (onReceiveMachineUpdate_drops_missing_envelope update_no_data
              (or_intror (or_intror (or_introl eq_refl)))
              "2024-05-01T10:00:00.000Z" page_u1) as (s' & Hrun & _ & Hlogs & _).
  exists s'. split; [exact Hrun | exact Hlogs].
Defined.

(** C6.  When the payload has the envelope ([response] and [response.data]
    are truthy, as they are when [data] is an object), the handler returns
    normally and the buffer becomes the new entry followed by the first 49
    entries of the previous buffer, which is the previous buffer with the
    entry in front cut at 50.  The entry has every property of [data] under
    its key, except that [timestamp] holds the arrival stamp, whether or not
    [data] had a [timestamp]; nothing else on the page changes. *)
Theorem onReceiveMachineUpdate_prepends_stamped (response : JsValue) (now : string) (s : Sys) :
  has_envelope response = true →
  ∃ data s',
    Js.get_data response = inr data
    ∧ onReceiveMachineUpdate response now s = (inr tt, s')
    ∧ let log : MachineLog := <["timestamp" := JStr now]> (Js.own_props data) in
      logs (page s') = log :: take 49 (logs (page s))
      ∧ logs (page s') = take 50 (log :: logs (page s))
      ∧ length (logs (page s')) = min 50 (S (length (logs (page s))))
      ∧ log !! "timestamp" = Some (JStr now)
      ∧ (∀ k, k ≠ "timestamp" → log !! k = Js.own_props data !! k)
      ∧ (∀ fields, data = JObj fields →
           ∀ k, k ≠ "timestamp" → log !! k = fields !! k)
      ∧ connectionStatus (page s') = connectionStatus (page s)
      ∧ connection (page s') = connection (page s)
      ∧ connectionRef (page s') = connectionRef (page s)
      ∧ isConnected (page s') = isConnected (page s)
      ∧ serverUrl (page s') = serverUrl (page s)
      ∧ userId (page s') = userId (page s).
Proof.
  intros H.
  destruct (onReceiveMachineUpdate_envelope response now s H) as (data & Hd & Hrun).
  exists data. eexists. split; [exact Hd|]. split; [exact Hrun|].
  destruct_sys s. unfold_m. split_and!; try reflexivity.
  - rewrite length_cons, length_take. lia.
  - apply lookup_insert_eq.
  - intros k Hk. by apply lookup_insert_ne.
  - intros fields -> k Hk. by apply lookup_insert_ne.
Qed.

Lemma onReceiveMachineUpdate_prepends_stamped_witness :
  ∃ s', onReceiveMachineUpdate update_m1 "2024-05-01T10:00:00.000Z" page_u1
        = (inr tt, s')
  ∧ ∃ log, logs (page s') = [log]
    ∧ log !! "timestamp" = Some (JStr "2024-05-01T10:00:00.000Z")
    ∧ log !! "id" = Some (JStr "m1")
    ∧ log !! "status" = Some (JStr "Online").
Proof.
  destruct (onReceiveMachineUpdate_prepends_stamped update_m1
              "2024-05-01T10:00:00.000Z" page_u1 eq_refl)
    as (data & s' & Hd & Hrun & Hlogs & _ & _ & Hstamp & Hother & _).
  exists s'. split; [exact Hrun|].
  injection Hd as <-.
  eexists. split; [exact Hlogs|]. split; [exact Hstamp|].
  split; (rewrite Hother; [reflexivity | discriminate]).
Defined.

(** ** Connecting and disconnecting: one call *)

(** With an identity that is not blank, [connectToHub] sets the status to
    [connecting], builds one connection for the URL with the identity as
    [user_id], starts it and waits. *)
Lemma connectToHub_not_blank (s : Sys) :
  JsString.blank (userId (page s)) = false →
  exec connectToHub s
  = exec (setConnectionStatus connecting;;
          newConnection ← build
            {| SignalR.url := serverUrl (page s) ++ "?user_id=" ++ userId (page s);
               SignalR.withCredentials := false;
               SignalR.automaticReconnect := true;
               SignalR.logging := SignalR.Information;
               SignalR.state := SignalR.Disconnected |};
          start newConnection) s.
Proof.
  intros H. destruct_sys s. unfold connectToHub. unfold_m.
  by rewrite truthy_trim, H.
Qed.

(** C4.  With a user id that is empty or all white space, [connectToHub]
    shows the alert and does nothing else: the page, so the connection
    status, is unchanged, no connection is built, and no [start()] or
    [stop()] is asked of any connection. *)
Theorem connectToHub_blank_identity (s : Sys) :
  JsString.blank (userId (page s)) = true →
  let s' := exec connectToHub s in
  alerts s' = (alerts s ++ ["Please enter a valid User ID"])%list
  ∧ page s' = page s
  ∧ connectionStatus (page s') = connectionStatus (page s)
  ∧ hubs s' = hubs s
  ∧ starting s' = starting s
  ∧ stopping s' = stopping s
  ∧ console s' = console s.
Proof.
  intros H. destruct_sys s. unfold connectToHub. unfold_m.
  rewrite truthy_trim, H. unfold_m. split_and!; reflexivity.
Qed.

Lemma connectToHub_blank_identity_witness :
  let s := run [TypeUserId "   "] initial in
  alerts (exec connectToHub s) = ["Please enter a valid User ID"]
  ∧ hubs (exec connectToHub s) = []
  ∧ connectionStatus (page (exec connectToHub s)) = disconnected.
Proof.
  pose proof (connectToHub_blank_identity (run [TypeUserId "   "] initial) eq_refl)
    as (Ha & _ & Hst & Hh & _).
  split; [exact Ha|]. split; [exact Hh | exact Hst].
Defined.

(** C8.  With no handle in [connectionRef], [disconnectFromHub] changes
    nothing and raises nothing.  With a handle [h] there, it asks [h] to stop
    and waits; when the call is resumed, [stop()] having resolved or having
    rejected, the status is [disconnected], [isConnected] is false, and both
    [connection] and [connectionRef] are empty. *)
Theorem disconnectFromHub_cleanup (s : Sys) :
  (connectionRef (page s) = None → disconnectFromHub s = (tt, s))
  ∧ (∀ h, connectionRef (page s) = Some h →
       let s1 := exec disconnectFromHub s in
       h ∈ stopping s1
       ∧ page s1 = page s
       ∧ ∀ ev, ev = StopResolved h ∨ ev = StopRejected h →
           let s2 := step ev s1 in
           connectionStatus (page s2) = disconnected
           ∧ connectionRef (page s2) = None
           ∧ connection (page s2) = None
           ∧ isConnected (page s2) = false)
  ∧ (∀ h ev, h ∈ stopping s → ev = StopResolved h ∨ ev = StopRejected h →
       let s2 := step ev s in
       connectionStatus (page s2) = disconnected
       ∧ connectionRef (page s2) = None
       ∧ connection (page s2) = None
       ∧ isConnected (page s2) = false).
Proof.
  assert (∀ s h ev, h ∈ stopping s → ev = StopResolved h ∨ ev = StopRejected h →
       let s2 := step ev s in
       connectionStatus (page s2) = disconnected
       ∧ connectionRef (page s2) = None
       ∧ connection (page s2) = None
       ∧ isConnected (page s2) = false) as Hfin.
  { intros s0 h ev Hin [-> | ->]; destruct_sys s0;
      unfold step, handle; unfold_m;
      rewrite (bool_decide_eq_true_2 _ Hin); unfold_m; done. }
  split_and!.
  - intros H. destruct_sys s. unfold disconnectFromHub. unfold_m. by rewrite H.
  - intros h H.
    assert (exec disconnectFromHub s = exec (stop h) s) as ->.
    { destruct_sys s. unfold disconnectFromHub. unfold_m. by rewrite H. }
    assert (h ∈ stopping (exec (stop h) s)) as Hin.
    { destruct_sys s. unfold_m.
      apply elem_of_app; right; apply elem_of_cons; by left. }
    split; [exact Hin|]. split; [by destruct_sys s|].
    intros ev Hev. apply (Hfin _ h ev); [exact Hin | exact Hev].
  - apply Hfin.
Qed.

Lemma disconnectFromHub_cleanup_witness :
  let s := run [TypeUserId "u1"; ClickConnect; StartResolved 0] initial in
  connectionRef (page s) = Some 0
  ∧ connectionStatus (page (step (StopRejected 0) (exec disconnectFromHub s)))
    = disconnected
  ∧ connectionRef (page (step (StopRejected 0) (exec disconnectFromHub s))) = None
  ∧ disconnectFromHub initial = (tt, initial).
Proof.
  pose proof (disconnectFromHub_cleanup
                (run [TypeUserId "u1"; ClickConnect; StartResolved 0] initial))
    as (_ & Hactive & _).
  destruct (Hactive 0 eq_refl) as (_ & _ & Hfin).
  destruct (Hfin (StopRejected 0) (or_intror eq_refl)) as (Hst & Href & _).
  split; [reflexivity|]. split; [exact Hst|]. split; [exact Href|].
  exact (proj1 (disconnectFromHub_cleanup initial) eq_refl).
Defined.

(** ** The log buffer: sequences of events *)

Lemma deliver_snoc evs response now s :
  deliver (evs ++ [(response, now)]) s
  = exec (onReceiveMachineUpdate response now) (deliver evs s).
Proof.
  revert s. induction evs as [|[r n] evs IH]; intros s; simpl; [done|].
  apply IH.
Qed.

(** What one delivery does to the buffer. *)
Lemma onReceiveMachineUpdate_logs response now s :
  logs (page (exec (onReceiveMachineUpdate response now) s))
  = if has_envelope response then
      match Js.get_data response with
      | inr data =>
          <["timestamp" := JStr now]> (Js.own_props data) :: take 49 (logs (page s))
      | inl _ => logs (page s)
      end
    else logs (page s).
Proof.
  destruct (has_envelope response) eqn:H.
  - destruct (onReceiveMachineUpdate_envelope response now s H) as (data & Hd & Hrun).
    unfold exec at 1. rewrite Hrun, Hd. reflexivity.
  - unfold exec at 1. by rewrite (onReceiveMachineUpdate_no_envelope _ now s H).
Qed.

Lemma onReceiveMachineUpdate_bounded response now s :
  length (logs (page s)) ≤ 50 →
  length (logs (page (exec (onReceiveMachineUpdate response now) s))) ≤ 50.
Proof.
  intros H. rewrite onReceiveMachineUpdate_logs.
  destruct (has_envelope response); [|done].
  destruct (Js.get_data response); [done|].
  rewrite length_cons, length_take. lia.
Qed.

Lemma deliver_bounded evs s :
  length (logs (page s)) ≤ 50 → length (logs (page (deliver evs s))) ≤ 50.
Proof.
  revert s. induction evs as [|[r n] evs IH]; intros s H; simpl; [done|].
  apply IH. by apply onReceiveMachineUpdate_bounded.
Qed.

Lemma newest_first_nil : newest_first [] [].
Proof.
  exists []. split; [done|]. split; intros; simplify_eq/=.
Qed.

(** An event without the envelope leaves the order as it is. *)
Lemma newest_first_skip evs ev buf :
  newest_first evs buf → newest_first (evs ++ [ev]) buf.
Proof.
  intros (ps & Hlen & Hdec & Hev). exists ps. split; [done|]. split; [done|].
  intros i p Hp. destruct (Hev i p Hp) as (r & n & d & He & ?).
  exists r, n, d. split; [|done]. by apply lookup_app_l_Some.
Qed.

(** An accepted event goes in front, ahead of everything that arrived
    before it. *)
Lemma newest_first_push evs response now data buf :
  has_envelope response = true →
  Js.get_data response = inr data →
  newest_first evs buf →
  newest_first (evs ++ [(response, now)])
    (<["timestamp" := JStr now]> (Js.own_props data) :: take 49 buf).
Proof.
  intros Henv Hdata (ps & Hlen & Hdec & Hev).
  exists (length evs :: take 49 ps). split_and!.
  - rewrite !length_cons, !length_take. lia.
  - intros [|i] p q Hp Hq; simpl in *.
    + injection Hp as <-.
      apply lookup_take_Some in Hq as [Hq _].
      destruct (Hev 0 q Hq) as (? & ? & ? & He & _).
      by apply lookup_lt_Some in He.
    + apply lookup_take_Some in Hp as [Hp _].
      apply lookup_take_Some in Hq as [Hq _]. eauto.
  - intros [|i] p Hp; simpl in *.
    + injection Hp as <-. exists response, now, data.
      split; [|done]. by rewrite list_lookup_middle.
    + apply lookup_take_Some in Hp as [Hp Hi].
      destruct (Hev i p Hp) as (r & n & d & He & Hr & Hd & Hb).
      exists r, n, d. split; [by apply lookup_app_l_Some|].
      split; [done|]. split; [done|]. by rewrite lookup_take_lt.
Qed.

Lemma deliver_newest_first evs s :
  logs (page s) = [] → newest_first evs (logs (page (deliver evs s))).
Proof.
  intros Hs. induction evs as [|[response now] evs IH] using rev_ind.
  - simpl. rewrite Hs. apply newest_first_nil.
  - rewrite deliver_snoc, onReceiveMachineUpdate_logs.
    destruct (has_envelope response) eqn:Henv; [|by apply newest_first_skip].
    destruct (Js.get_data response) as [e|data] eqn:Hd;
      [by apply newest_first_skip|].
    by apply newest_first_push.
Qed.

(** ** Invariants of the page *)

Lemma exec_connectToHub_cases s :
  exec connectToHub s = exec (alert "Please enter a valid User ID") s
  ∨ exec connectToHub s
    = exec (setConnectionStatus connecting;;
            newConnection ← build
              {| SignalR.url := serverUrl (page s) ++ "?user_id=" ++ userId (page s);
                 SignalR.withCredentials := false;
                 SignalR.automaticReconnect := true;
                 SignalR.logging := SignalR.Information;
                 SignalR.state := SignalR.Disconnected |};
            start newConnection) s.
Proof.
  destruct (JsString.blank (userId (page s))) eqn:H.
  - left. destruct_sys s. unfold connectToHub. unfold_m.
    by rewrite truthy_trim, H.
  - right. by apply connectToHub_not_blank.
Qed.

Lemma step_logs_bounded ev s :
  length (logs (page s)) ≤ 50 → length (logs (page (step ev s))) ≤ 50.
Proof.
  intros H. destruct_sys s.
  destruct ev; step_cases; try done; try (simpl; lia).
  rewrite length_cons, length_take. lia.
Qed.

Lemma run_logs_bounded evs s :
  length (logs (page s)) ≤ 50 → length (logs (page (run evs s))) ≤ 50.
Proof.
  revert s. induction evs as [|ev evs IH]; intros s H; simpl; [done|].
  by apply IH, step_logs_bounded.
Qed.

Lemma step_status_inv ev s : status_inv s → status_inv (step ev s).
Proof.
  unfold status_inv. intros H. destruct_sys s.
  destruct ev; step_cases; try done.
Qed.

Lemma run_status_inv evs s : status_inv s → status_inv (run evs s).
Proof.
  revert s. induction evs as [|ev evs IH]; intros s H; simpl; [done|].
  by apply IH, step_status_inv.
Qed.

Lemma elem_of_remove_one x h l : x ∈ remove_one h l → x ∈ l.
Proof.
  induction l as [|y l IH]; simpl; [done|].
  case_decide; rewrite !elem_of_cons; [tauto|]. intros [->|?]; auto.
Qed.

Lemma NoDup_remove_one h l : NoDup l → NoDup (remove_one h l).
Proof.
  induction 1 as [|y l Hy Hl IH]; simpl; [constructor|].
  case_decide; [done|]. constructor; [|done].
  intros Hin. by apply Hy, (elem_of_remove_one _ h).
Qed.

Lemma not_elem_of_remove_one h l : NoDup l → h ∉ remove_one h l.
Proof.
  induction 1 as [|y l Hy Hl IH]; simpl; [apply not_elem_of_nil|].
  case_decide; [by subst|]. rewrite not_elem_of_cons. split; [congruence|done].
Qed.


Lemma step_handles_inv ev s : handles_inv s → handles_inv (step ev s).
Proof.
  unfold handles_inv. destruct_sys s. intros (Hnd & Hst & Href & Hcon).
  assert (∀ c : SignalR.HubConnection, NoDup (sta ++ [length hbs])
    ∧ (∀ h, h ∈ (sta ++ [length hbs])%list →
         h < length hbs + length [c] ∧ ref ≠ Some h ∧ conn ≠ Some h)
    ∧ (∀ h, ref = Some h → h < length hbs + length [c])
    ∧ (∀ h, conn = Some h → h < length hbs + length [c])) as Hbuild.
  { intros c. simpl. split_and!.
    - apply NoDup_app. split; [done|]. split; [|apply NoDup_singleton].
      intros h Hh ->%list_elem_of_singleton. apply Hst in Hh. lia.
    - intros h [Hh | ->%list_elem_of_singleton]%elem_of_app.
      + destruct (Hst h Hh) as (? & ? & ?). split_and!; [lia|done|done].
      + split_and!; [lia| |]; intros E; [apply Href in E|apply Hcon in E]; lia.
    - intros h E. apply Href in E. lia.
    - intros h E. apply Hcon in E. lia. }
  assert (∀ h, NoDup (remove_one h sta)
    ∧ (∀ h0, h0 ∈ remove_one h sta →
         h0 < length hbs ∧ ref ≠ Some h0 ∧ conn ≠ Some h0)) as Hresume.
  { intros h. split; [by apply NoDup_remove_one|].
    intros h0 Hh0. by apply Hst, (elem_of_remove_one _ h). }
  destruct ev; step_cases; rewrite ?length_alter, ?length_app;
    try (split_and!; assumption); try apply Hbuild.
  - match goal with H : bool_decide _ = true |- _ =>
      apply bool_decide_eq_true in H; rename H into Hin end.
    destruct (Hresume h) as [Hnd' Hst']. split_and!; [done| | |].
    + intros h0 Hh0. destruct (Hst' h0 Hh0) as (? & _ & _).
      assert (h0 ≠ h)
        by (intros ->; by apply (not_elem_of_remove_one h sta)).
      split_and!; [done | congruence | congruence].
    + intros h0 [= <-]. by apply Hst.
    + intros h0 [= <-]. by apply Hst.
  - destruct (Hresume h) as [Hnd' Hst']. split_and!; done.
  - split_and!; [done| |done|done].
    intros h0 Hh0. destruct (Hst h0 Hh0) as (? & _ & _). done.
  - split_and!; [done| |done|done].
    intros h0 Hh0. destruct (Hst h0 Hh0) as (? & _ & _). done.
Qed.

Lemma run_handles_inv evs s : handles_inv s → handles_inv (run evs s).
Proof.
  revert s. induction evs as [|ev evs IH]; intros s H; simpl; [done|].
  by apply IH, step_handles_inv.
Qed.

Lemma initial_status_inv : status_inv initial.
Proof. unfold status_inv. simpl. discriminate. Qed.

Lemma initial_handles_inv : handles_inv initial.
Proof.
  unfold handles_inv. simpl. split_and!; try done.
  - constructor.
  - intros h Hh. by apply elem_of_nil in Hh.
Qed.

(** ** The log buffer over a run *)

(** C1.  Whatever updates are delivered, and in any run of the page, the
    buffer holds at most 50 entries.  Starting from an empty buffer the
    entries are in arrival order, latest first: entry [i] was built from an
    event that arrived strictly later than the one behind entry [i + 1].  An
    accepted update that finds 50 entries drops the last of them, which is
    the oldest, and keeps the other 49 behind the new entry. *)
Theorem logs_bounded_newest_first :
  (∀ evs s, length (logs (page s)) ≤ 50 →
            length (logs (page (deliver evs s))) ≤ 50)
  ∧ (∀ trace, length (logs (page (run trace initial))) ≤ 50)
  ∧ (∀ evs s, logs (page s) = [] →
              newest_first evs (logs (page (deliver evs s))))
  ∧ (∀ s response now,
       has_envelope response = true → length (logs (page s)) = 50 →
       ∃ kept oldest data,
         logs (page s) = (kept ++ [oldest])%list
         ∧ Js.get_data response = inr data
         ∧ logs (page (exec (onReceiveMachineUpdate response now) s))
           = <["timestamp" := JStr now]> (Js.own_props data) :: kept
         ∧ length (logs (page (exec (onReceiveMachineUpdate response now) s))) = 50).
Proof.
  split_and!.
  - apply deliver_bounded.
  - intros trace. apply run_logs_bounded. simpl. lia.
  - apply deliver_newest_first.
  - intros s response now Henv Hlen.
    destruct (lookup_lt_is_Some_2 (logs (page s)) 49) as [oldest Hold]; [lia|].
    exists (take 49 (logs (page s))), oldest.
    rewrite onReceiveMachineUpdate_logs, Henv.
    destruct (Js.get_data response) as [e|data] eqn:Hd.
    { unfold has_envelope in Henv. rewrite Hd in Henv.
      by rewrite andb_false_r in Henv. }
    exists data. split_and!; [|done|done|].
    + rewrite <- (take_S_r _ _ _ Hold). symmetry. apply take_ge. lia.
    + rewrite length_cons, length_take. lia.
Qed.

Lemma logs_bounded_newest_first_witness :
  length (logs (page (deliver updates_51 page_u1))) ≤ 50
  ∧ newest_first updates_51 (logs (page (deliver updates_51 page_u1)))
  ∧ ∃ kept oldest,
      logs (page (deliver (take 50 updates_51) page_u1)) = (kept ++ [oldest])%list
      ∧ oldest !! "id" = Some (JStr "1")
      ∧ logs (page (deliver updates_51 page_u1))
        = <["timestamp" := JStr "51"]> {[ "id" := JStr "51" ]} :: kept.
Proof.
  destruct logs_bounded_newest_first as (Hbound & _ & Horder & Hevict).
  split; [apply Hbound; simpl; lia|].
  split; [apply Horder; reflexivity|].
  destruct (Hevict (deliver (take 50 updates_51) page_u1)
              (update_id 51).1 (update_id 51).2 eq_refl)
    as (kept & oldest & data & Hsplit & Hd & Hlogs & _); [by vm_compute|].
  exists kept, oldest. split; [exact Hsplit|].
  injection Hd as <-. split; [|exact Hlogs].
  assert (last (logs (page (deliver (take 50 updates_51) page_u1))) = Some oldest)
    as Hlast by (rewrite Hsplit; apply last_snoc).
  vm_compute in Hlast. injection Hlast as <-. reflexivity.
Defined.

(** The scenario of the 51 updates: 50 entries remain, with the ids ["51"]
    down to ["2"]; update ["1"] is gone. *)
Lemma updates_51_scenario :
  let buf := logs (page (deliver updates_51 page_u1)) in
  length buf = 50
  ∧ (buf !! 0 ≫= (.!! "id")) = Some (JStr "51")
  ∧ (.!! "id") <$> buf = (λ i, Some (JStr (pretty i))) <$> reverse (seq 2 50).
Proof. split_and!; by vm_compute. Qed.

(** ** The connection life cycle over a run *)

Lemma reachable_status_inv evs : status_inv (run evs initial).
Proof. apply run_status_inv, initial_status_inv. Qed.

Lemma reachable_handles_inv evs : handles_inv (run evs initial).
Proof. apply run_handles_inv, initial_handles_inv. Qed.

Lemma step_StartResolved h s :
  h ∈ starting s →
  step (StartResolved h) s
  = exec (resume_start h;; set_hub_state h SignalR.Connected;;
          connectToHub_resolved h) s.
Proof.
  intros Hin. destruct_sys s. unfold step, handle. unfold_m.
  by rewrite (bool_decide_eq_true_2 _ Hin).
Qed.

Lemma step_StartRejected h s :
  h ∈ starting s →
  step (StartRejected h) s
  = exec (resume_start h;; set_hub_state h SignalR.Disconnected;;
          connectToHub_rejected) s.
Proof.
  intros Hin. destruct_sys s. unfold step, handle. unfold_m.
  by rewrite (bool_decide_eq_true_2 _ Hin).
Qed.

Lemma hub_state_alter h st (hbs : list SignalR.HubConnection) :
  h < length hbs →
  SignalR.state <$> (alter (SignalR.set_state st) h hbs !! h) = Some st.
Proof.
  intros Hlt. rewrite list_lookup_alter_eq.
  destruct (lookup_lt_is_Some_2 hbs h Hlt) as [c ->]. reflexivity.
Qed.

(** With an identity that is not blank, [connectToHub] builds the next
    connection, starts it and waits for it; the connections that exist are
    left as they are. *)
Lemma connectToHub_builds_and_starts s :
  JsString.blank (userId (page s)) = false →
  let s' := exec connectToHub s in
  let h := length (hubs s) in
  length (hubs s') = S (length (hubs s))
  ∧ h ∈ starting s'
  ∧ hub_state h s' = Some SignalR.Connecting
  ∧ (∀ h', h' < length (hubs s) → hubs s' !! h' = hubs s !! h')
  ∧ connectionStatus (page s') = connecting.
Proof.
  intros H. cbv zeta. rewrite (connectToHub_not_blank s H).
  destruct_sys s. unfold hub_state. unfold_m. split_and!.
  - rewrite length_alter, length_app. simpl. lia.
  - apply elem_of_app. right. by apply list_elem_of_singleton.
  - apply hub_state_alter. rewrite length_app. simpl. lia.
  - intros h' Hlt. rewrite list_lookup_alter_ne by lia. by apply lookup_app_l.
  - reflexivity.
Qed.

(** C7.  In any run of the page, when the [start()] that a [connectToHub]
    call is waiting for rejects, the call ends with the status
    [disconnected] and the failure alert shown; the connection of that call
    is stored neither in [connectionRef] nor in [connection], which are what
    they were; it is in the [Disconnected] state; the call no longer waits,
    no other call is made to wait, and no connection is built: nothing is
    tried again. *)
Theorem connectToHub_handshake_failure (evs : list Event) (h : Handle) :
  let s := run evs initial in
  h ∈ starting s →
  let s' := step (StartRejected h) s in
  connectionStatus (page s') = disconnected
  ∧ alerts s'
    = (alerts s ++
       ["Failed to connect to SignalR hub. Please check the server URL and try again."])%list
  ∧ connectionRef (page s') = connectionRef (page s)
  ∧ connection (page s') = connection (page s)
  ∧ connectionRef (page s') ≠ Some h
  ∧ connection (page s') ≠ Some h
  ∧ hub_state h s' = Some SignalR.Disconnected
  ∧ (h ∉ starting s')
  ∧ starting s' = remove_one h (starting s)
  ∧ stopping s' = stopping s
  ∧ length (hubs s') = length (hubs s).
Proof.
  intros s Hin. cbv zeta.
  destruct (reachable_handles_inv evs) as (Hnd & Hst & _).
  fold s in Hnd, Hst. destruct (Hst h Hin) as (Hlt & Href & Hcon).
  rewrite (step_StartRejected h s Hin).
  pose proof (not_elem_of_remove_one h _ Hnd) as Hout.
  clearbody s. destruct_sys s. unfold hub_state. unfold_m.
  split_and!; try done.
  - by apply hub_state_alter.
  - by rewrite length_alter.
Qed.

Lemma connectToHub_handshake_failure_witness :
  let s := run [TypeUserId "u1"; ClickConnect; StartRejected 0] initial in
  connectionStatus (page s) = disconnected
  ∧ connectionRef (page s) = None
  ∧ hub_state 0 s = Some SignalR.Disconnected
  ∧ starting s = []
  ∧ length (alerts s) = 1.
Proof.
  destruct (connectToHub_handshake_failure [TypeUserId "u1"; ClickConnect] 0)
    as (Hst & Hal & Href & _ & _ & _ & Hhub & _ & Hsta & _).
  { apply elem_of_cons. by left. }
  split; [exact Hst|]. split; [exact Href|]. split; [exact Hhub|].
  split; [exact Hsta|]. change (length (alerts (step (StartRejected 0)
    (run [TypeUserId "u1"; ClickConnect] initial))) = 1).
  rewrite Hal. reflexivity.
Defined.






(** * Further properties *)

(** ** Styling *)

(** X1.  [getStatusColor] gives the same styling to two statuses that are
    equal up to letter case; it returns one of five stylings; and the gray
    one is returned exactly for the statuses whose lower-case form is none
    of the labels. *)
Theorem getStatusColor_classes :
  (∀ s t, JsString.toLowerCase s = JsString.toLowerCase t →
          getStatusColor s = getStatusColor t)
  ∧ (∀ s, getStatusColor s ∈
          ["bg-green-100 text-green-800"; "bg-red-100 text-red-800";
           "bg-blue-100 text-blue-800"; "bg-yellow-100 text-yellow-800";
           "bg-gray-100 text-gray-800"])
  ∧ (∀ s, getStatusColor s = "bg-gray-100 text-gray-800"
          ↔ JsString.case_of (JsString.toLowerCase s) color_vocabulary = false).
Proof.
  split_and!.
  - intros s t H. unfold getStatusColor. by rewrite H.
  - intros s. unfold getStatusColor. rewrite !elem_of_cons.
    repeat (destruct (JsString.case_of _ _); [tauto|]). tauto.
  - intros s. unfold getStatusColor, color_vocabulary.
    change ["completed"; "success"; "online"; "running"; "active";
            "error"; "failed"; "offline"; "emergency";
            "processing"; "warning"; "inproduction"; "idle"]
      with (["completed"; "success"; "online"; "running"; "active"]
            ++ ["error"; "failed"; "offline"; "emergency"]
            ++ ["processing"; "warning"; "inproduction"] ++ ["idle"])%list.
    rewrite !case_of_app.
    repeat (destruct (JsString.case_of _ _); [by split|]). by split.
Qed.

Lemma getStatusColor_classes_witness :
  getStatusColor "IDLE" = getStatusColor "idle"
  ∧ getStatusColor "Maintenance" = "bg-gray-100 text-gray-800".
Proof.
  destruct getStatusColor_classes as (Hcase & _ & Hgray).
  split; [by apply Hcase | by apply Hgray].
Defined.

(** X2.  The icon and the styling of a status agree on success and on
    failure: the icon is the green [CheckCircle] exactly when the styling is
    the green one, and the red [XCircle] exactly when the styling is the red
    one.  The yellow [AlertCircle] goes with the three other stylings: blue,
    yellow and gray. *)
Theorem icon_and_color_agree (status : string) :
  (getStatusIcon status
   = {| component := CheckCircle; className := "h-4 w-4 text-green-500" |}
   ↔ getStatusColor status = "bg-green-100 text-green-800")
  ∧ (getStatusIcon status
     = {| component := XCircle; className := "h-4 w-4 text-red-500" |}
     ↔ getStatusColor status = "bg-red-100 text-red-800")
  ∧ (getStatusIcon status
     = {| component := AlertCircle; className := "h-4 w-4 text-yellow-500" |}
     ↔ getStatusColor status ∈
         ["bg-blue-100 text-blue-800"; "bg-yellow-100 text-yellow-800";
          "bg-gray-100 text-gray-800"]).
Proof.
  unfold getStatusIcon, getStatusColor. rewrite !elem_of_cons.
  destruct (JsString.case_of _ ["completed"; _; _; _; _]).
  { split_and!; split; try done; intros [|[|[|]]]; try done.
    by apply elem_of_nil in H. }
  destruct (JsString.case_of _ ["error"; _; _; _]).
  { split_and!; split; try done; intros [|[|[|]]]; try done.
    by apply elem_of_nil in H. }
  repeat (destruct (JsString.case_of _ _));
    split_and!; split; try done; tauto.
Qed.

(** ** What every run of the page keeps *)

Lemma run_invariant (P : Sys → Prop) :
  (∀ ev s, P s → P (step ev s)) →
  ∀ evs s, P s → P (run evs s).
Proof.
  intros Hstep evs. induction evs as [|ev evs IH]; intros s H; simpl; [done|].
  by apply IH, Hstep.
Qed.

Lemma run_connection_ref evs s :
  connection (page s) = connectionRef (page s) →
  connection (page (run evs s)) = connectionRef (page (run evs s)).
Proof.
  apply (run_invariant (λ s, connection (page s) = connectionRef (page s))).
  clear. intros ev s H. destruct_sys s. destruct ev; step_cases; done.
Qed.

(** X3.  In every run the state cell [connection] and the ref cell
    [connectionRef] hold the same handle: they are assigned together when a
    [start()] resolves and cleared together in the [finally] block. *)
Theorem connection_and_ref_agree (evs : list Event) :
  connection (page (run evs initial)) = connectionRef (page (run evs initial)).
Proof. apply run_connection_ref; reflexivity. Qed.

(** X4.  In every run, whenever the status is [connected] the page is
    marked connected, so that the Disconnect button is the one rendered, the
    Connect button is not, and both inputs are disabled. *)
Theorem connected_renders_disconnect (evs : list Event) :
  let p := page (run evs initial) in
  connectionStatus p = connected →
  isConnected p = true
  ∧ disconnect_button_enabled p = true
  ∧ connect_button_enabled p = false
  ∧ inputs_enabled p = false.
Proof.
  intros p Hc. pose proof (reachable_status_inv evs Hc) as Hi. fold p in Hi.
  unfold disconnect_button_enabled, connect_button_enabled, inputs_enabled.
  rewrite Hi. done.
Qed.

Lemma connected_renders_disconnect_witness :
  let p := page (run [TypeUserId "u1"; ClickConnect; StartResolved 0] initial) in
  isConnected p = true ∧ connect_button_enabled p = false.
Proof.
  destruct (connected_renders_disconnect
              [TypeUserId "u1"; ClickConnect; StartResolved 0] eq_refl)
    as (Hi & _ & Hc & _).
  split; [exact Hi | exact Hc].
Defined.

(** X5.  In every run the handles in use name connections that were built:
    the handle in [connectionRef], the one in [connection], and those of the
    [connectToHub] calls waiting for [start()].  The waiting calls wait on
    pairwise distinct connections, none of which is the stored one. *)
Theorem handles_name_built_connections (evs : list Event) :
  let s := run evs initial in
  NoDup (starting s)
  ∧ (∀ h, h ∈ starting s → h < length (hubs s))
  ∧ (∀ h, h ∈ starting s → connectionRef (page s) ≠ Some h)
  ∧ (∀ h, connectionRef (page s) = Some h → h < length (hubs s))
  ∧ (∀ h, connection (page s) = Some h → h < length (hubs s)).
Proof.
  destruct (reachable_handles_inv evs) as (Hnd & Hst & Href & Hcon).
  cbv zeta. split_and!; try done; intros h Hh; by destruct (Hst h Hh) as (? & ? & ?).
Qed.

Lemma handles_name_built_connections_witness :
  let s := run [TypeUserId "u1"; ClickConnect; CallConnectToHub; StartResolved 1]
             initial in
  starting s = [0] ∧ connectionRef (page s) = Some 1 ∧ 1 < length (hubs s).
Proof.
  destruct (handles_name_built_connections
              [TypeUserId "u1"; ClickConnect; CallConnectToHub; StartResolved 1])
    as (_ & _ & _ & Href & _).
  split; [reflexivity|]. split; [reflexivity|]. exact (Href 1 eq_refl).
Defined.

Lemma built_by_page_set_state st c :
  built_by_page c → built_by_page (SignalR.set_state st c).
Proof. by destruct c. Qed.

(** X6.  In every run, every connection the page has built was built for a
    URL that is some server URL followed by [?user_id=] and an identity that
    is not blank, without credentials, with automatic reconnect and with
    [Information] logging. *)
Theorem connections_built_with_identity (evs : list Event) :
  Forall built_by_page (hubs (run evs initial)).
Proof.
  apply (run_invariant (λ s, Forall built_by_page (hubs s)));
    [|by apply Forall_nil].
  intros ev s H. destruct_sys s.
  destruct ev; step_cases; try done;
    try (apply Forall_alter; [done | intros; by apply built_by_page_set_state]).
  all: apply Forall_alter; [|intros; by apply built_by_page_set_state].
  all: apply Forall_app; split; [done|]; apply Forall_singleton.
  all: split_and!; try done; exists url, uid; split; [done|].
  all: match goal with H : negb (JsString.truthy (JsString.trim _)) = false |- _ =>
         rewrite truthy_trim, negb_involutive in H; exact H end.
Qed.

(** What one event does to the buffer: nothing, empty it, or put a stamped
    entry in front of its first 49 entries. *)
Lemma step_logs_cases ev s :
  logs (page (step ev s)) = logs (page s)
  ∨ logs (page (step ev s)) = []
  ∨ ∃ now props,
      logs (page (step ev s))
      = <["timestamp" := JStr now]> props :: take 49 (logs (page s)).
Proof.
  destruct_sys s. destruct ev; step_cases; eauto.
Qed.

(** X7.  In every run, every entry of the buffer has a [timestamp] that is
    a string: the stamp the handler gave it. *)
Theorem logs_all_stamped (evs : list Event) :
  Forall (λ log : MachineLog, ∃ now, log !! "timestamp" = Some (JStr now))
    (logs (page (run evs initial))).
Proof.
  apply (run_invariant (λ s,
    Forall (λ log : MachineLog, ∃ now, log !! "timestamp" = Some (JStr now))
      (logs (page s)))); [|by apply Forall_nil].
  intros ev s H.
  destruct (step_logs_cases ev s) as [-> | [-> | (now & props & ->)]];
    [done | by apply Forall_nil |].
  apply Forall_cons. split; [|by apply Forall_take].
  exists now. apply lookup_insert_eq.
Qed.

(** ** The buffer in closed form *)

Lemma take_app_take {A} (n : nat) (l k : list A) :
  take n (l ++ take n k) = take n (l ++ k).
Proof.
  rewrite !take_app, take_take. f_equal. f_equal. lia.
Qed.

Lemma onReceiveMachineUpdate_record_of response now s :
  logs (page (exec (onReceiveMachineUpdate response now) s))
  = match record_of (response, now) with
    | Some log => take 50 (log :: logs (page s))
    | None => logs (page s)
    end.
Proof.
  rewrite onReceiveMachineUpdate_logs. unfold record_of. simpl.
  destruct (has_envelope response); [|done].
  by destruct (Js.get_data response).
Qed.

(** X8.  After any sequence of updates delivered to a buffer of at most 50
    entries, the buffer is the entries of the accepted updates, latest
    first, followed by the previous entries, cut at 50.  In particular,
    after [clearLogs] the buffer depends on the later updates only. *)
Theorem deliver_closed_form (evs : list (JsValue * string)) (s : Sys) :
  length (logs (page s)) ≤ 50 →
  logs (page (deliver evs s))
  = take 50 (reverse (omap record_of evs) ++ logs (page s))
  ∧ logs (page (deliver evs (exec clearLogs s)))
    = take 50 (reverse (omap record_of evs)).
Proof.
  assert (∀ evs s, length (logs (page s)) ≤ 50 →
    logs (page (deliver evs s))
    = take 50 (reverse (omap record_of evs) ++ logs (page s))) as Hform.
  { clear. intros evs. induction evs as [|[response now] evs IH]; intros s Hs.
    - simpl. symmetry. by apply take_ge.
    - cbn [deliver omap list_omap].
      rewrite IH by by apply onReceiveMachineUpdate_bounded.
      rewrite onReceiveMachineUpdate_record_of.
      destruct (record_of (response, now)) as [log|]; [|done].
      rewrite take_app_take, reverse_cons, <- app_assoc. reflexivity. }
  intros Hs. split; [by apply Hform|].
  rewrite Hform.
  - destruct_sys s. unfold_m. by rewrite app_nil_r.
  - destruct_sys s. unfold_m. simpl. lia.
Qed.

Lemma deliver_closed_form_witness :
  logs (page (deliver updates_51 page_u1))
  = take 50 (reverse (omap record_of updates_51)).
Proof.
  destruct (deliver_closed_form updates_51 page_u1) as [Hform _];
    [simpl; lia|].
  rewrite Hform. by rewrite app_nil_r.
Defined.

(** X9.  A sequence of updates changes the buffer and the console and
    nothing else: the status, [isConnected], both handles, the inputs, the
    connections, the waiting calls and the alerts are what they were. *)
Theorem deliver_frame (evs : list (JsValue * string)) (s : Sys) :
  let s' := deliver evs s in
  connectionStatus (page s') = connectionStatus (page s)
  ∧ isConnected (page s') = isConnected (page s)
  ∧ connection (page s') = connection (page s)
  ∧ connectionRef (page s') = connectionRef (page s)
  ∧ userId (page s') = userId (page s)
  ∧ serverUrl (page s') = serverUrl (page s)
  ∧ hubs s' = hubs s ∧ starting s' = starting s ∧ stopping s' = stopping s
  ∧ alerts s' = alerts s.
Proof.
  cbv zeta. revert s. induction evs as [|[response now] evs IH]; intros s.
  - simpl. split_and!; reflexivity.
  - cbn [deliver].
    destruct (IH (exec (onReceiveMachineUpdate response now) s))
      as (-> & -> & -> & -> & -> & -> & -> & -> & -> & ->).
    destruct_sys s. unfold onReceiveMachineUpdate. unfold_m.
    destruct (Js.truthy response); [|split_and!; reflexivity].
    destruct (Js.get_data response) as [e|data]; [split_and!; reflexivity|].
    destruct (Js.truthy data); split_and!; reflexivity.
Qed.

(** ** Who stores and who releases the handle *)

(** X10.  A handle is put in [connectionRef] only by the [connectToHub]
    call that waits on that connection, when its [start()] resolves; and a
    stored handle is taken out only when a [disconnectFromHub] call is
    resumed after its [stop()].  No other event, the close of the connection
    included, changes [connectionRef]. *)
Theorem connectionRef_changed_only_by_settling (ev : Event) (s : Sys) :
  connectionRef (page (step ev s)) ≠ connectionRef (page s) →
  (∃ h, ev = StartResolved h ∧ h ∈ starting s
        ∧ connectionRef (page (step ev s)) = Some h)
  ∨ (∃ h, (ev = StopResolved h ∨ ev = StopRejected h) ∧ h ∈ stopping s
          ∧ connectionRef (page (step ev s)) = None).
Proof.
  destruct_sys s. destruct ev; step_cases; try done; intros _.
  - left. exists h. split_and!; [done| |done]. by eapply bool_decide_eq_true_1.
  - right. exists h. split_and!; [by left| |done]. by eapply bool_decide_eq_true_1.
  - right. exists h. split_and!; [by right| |done]. by eapply bool_decide_eq_true_1.
Qed.

Lemma connectionRef_changed_only_by_settling_witness :
  let s := run [TypeUserId "u1"; ClickConnect] initial in
  (∃ h, StartResolved 0 = StartResolved h ∧ h ∈ starting s
        ∧ connectionRef (page (step (StartResolved 0) s)) = Some h)
  ∨ (∃ h, (StartResolved 0 = StopResolved h ∨ StartResolved 0 = StopRejected h)
          ∧ h ∈ stopping s
          ∧ connectionRef (page (step (StartResolved 0) s)) = None).
Proof.
  apply (connectionRef_changed_only_by_settling (StartResolved 0)
           (run [TypeUserId "u1"; ClickConnect] initial)).
  discriminate.
Defined.

(** X11.  In any run, when the [start()] of a waiting [connectToHub] call
    resolves, its connection becomes the stored one, the status is
    [connected] and the page is marked connected; no [stop()] is asked of
    any connection, and the state of every other connection, the one stored
    before included, is what it was. *)
Theorem connectToHub_handshake_success (evs : list Event) (h : Handle) :
  let s := run evs initial in
  h ∈ starting s →
  let s' := step (StartResolved h) s in
  connectionStatus (page s') = connected
  ∧ isConnected (page s') = true
  ∧ connectionRef (page s') = Some h
  ∧ connection (page s') = Some h
  ∧ hub_state h s' = Some SignalR.Connected
  ∧ (h ∉ starting s')
  ∧ stopping s' = stopping s
  ∧ alerts s' = alerts s
  ∧ logs (page s') = logs (page s)
  ∧ (∀ h', h' ≠ h → hub_state h' s' = hub_state h' s).
Proof.
  intros s Hin. cbv zeta.
  destruct (reachable_handles_inv evs) as (Hnd & Hst & _).
  fold s in Hnd, Hst. destruct (Hst h Hin) as (Hlt & _ & _).
  rewrite (step_StartResolved h s Hin).
  pose proof (not_elem_of_remove_one h _ Hnd) as Hout.
  clearbody s. destruct_sys s. unfold hub_state. unfold_m.
  split_and!; try done.
  - by apply hub_state_alter.
  - intros h' Hne. by rewrite list_lookup_alter_ne.
Qed.

Lemma connectToHub_handshake_success_witness :
  let s := run [TypeUserId "u1"; ClickConnect; StartResolved 0; CallConnectToHub]
             initial in
  connectionRef (page s) = Some 0
  ∧ connectionRef (page (step (StartResolved 1) s)) = Some 1
  ∧ hub_state 0 (step (StartResolved 1) s) = Some SignalR.Connected
  ∧ stopping (step (StartResolved 1) s) = [].
Proof.
  destruct (connectToHub_handshake_success
              [TypeUserId "u1"; ClickConnect; StartResolved 0; CallConnectToHub] 1)
    as (_ & _ & Href & _ & _ & _ & Hsto & _ & _ & Hother).
  { vm_compute. constructor. }
  split; [reflexivity|]. split; [exact Href|]. split; [|exact Hsto].
  exact (eq_trans (Hother 0 (O_S 0)) eq_refl).
Defined.

(** ** Alerts *)

(** X12.  The only alerts the page shows are the two of [connectToHub]: an
    event either leaves the alerts as they are, or it is a connect with a
    blank identity, which adds the validation alert, or the rejection of a
    [start()], which adds the failure alert.  An error while disconnecting,
    a close of the connection and an inbound update never alert. *)
Theorem alerts_only_from_connect (ev : Event) (s : Sys) :
  alerts (step ev s) = alerts s
  ∨ ((ev = ClickConnect ∨ ev = CallConnectToHub)
     ∧ JsString.blank (userId (page s)) = true
     ∧ alerts (step ev s) = (alerts s ++ ["Please enter a valid User ID"])%list)
  ∨ ((∃ h, ev = StartRejected h ∧ h ∈ starting s)
     ∧ alerts (step ev s)
       = (alerts s ++
          ["Failed to connect to SignalR hub. Please check the server URL and try again."])%list).
Proof.
  destruct_sys s. destruct ev; step_cases; try (by left).
  - right; left. split_and!; [by left | | done].
    match goal with H : negb (JsString.truthy (JsString.trim _)) = true |- _ =>
      rewrite truthy_trim, negb_involutive in H; exact H end.
  - right; left. split_and!; [by right | | done].
    match goal with H : negb (JsString.truthy (JsString.trim _)) = true |- _ =>
      rewrite truthy_trim, negb_involutive in H; exact H end.
  - right; right. split; [|done]. exists h. split; [done|].
    by eapply bool_decide_eq_true_1.
Qed.

(** ** The close callback *)

(** X13.  When a connection the page built closes, the [onclose] callback
    sets the status to [disconnected] and clears [isConnected], so that the
    Connect button is usable again and the inputs are editable.  It shows
    no alert and does not release the handle: [connectionRef] and
    [connection] keep what they held, and the buffer is kept. *)
Theorem onclose_keeps_handle (h : Handle) (s : Sys) :
  h < length (hubs s) →
  let s' := step (Closed h) s in
  connectionStatus (page s') = disconnected
  ∧ isConnected (page s') = false
  ∧ connect_button_enabled (page s') = true
  ∧ inputs_enabled (page s') = true
  ∧ connectionRef (page s') = connectionRef (page s)
  ∧ connection (page s') = connection (page s)
  ∧ logs (page s') = logs (page s)
  ∧ alerts s' = alerts s
  ∧ hub_state h s' = Some SignalR.Disconnected.
Proof.
  intros Hlt. cbv zeta. destruct_sys s. unfold step, handle, hub_state. unfold_m.
  rewrite (bool_decide_eq_true_2 _ Hlt). unfold_m.
  split_and!; try done. by apply hub_state_alter.
Qed.

Lemma onclose_keeps_handle_witness :
  let s := run [TypeUserId "u1"; ClickConnect; StartResolved 0] initial in
  connectionRef (page (step (Closed 0) s)) = Some 0
  ∧ connect_button_enabled (page (step (Closed 0) s)) = true.
Proof.
  destruct (onclose_keeps_handle 0
              (run [TypeUserId "u1"; ClickConnect; StartResolved 0] initial))
    as (_ & _ & Hbtn & _ & Href & _); [simpl; lia|].
  split; [exact Href | exact Hbtn].
Defined.

(** ** Reconnecting *)

(** X14.  In any run, when a connection the page built reports that it is
    reconnecting while the status is [connected], the status becomes
    [connecting] but the page stays marked connected, so the Disconnect
    button stays and the Connect button is not rendered; when the
    connection then reports that it has reconnected, the page is exactly
    what it was before the drop: no update is replayed and no handle
    changes. *)
Theorem reconnect_round_trip (evs : list Event) (h : Handle) :
  let s := run evs initial in
  connectionStatus (page s) = connected → h < length (hubs s) →
  let s1 := step (HubReconnecting h) s in
  let s2 := step (HubReconnected h) s1 in
  connectionStatus (page s1) = connecting
  ∧ isConnected (page s1) = true
  ∧ disconnect_button_enabled (page s1) = true
  ∧ connect_button_enabled (page s1) = false
  ∧ page s2 = page s
  ∧ hub_state h s2 = Some SignalR.Connected
  ∧ alerts s2 = alerts s.
Proof.
  intros s Hc Hlt. cbv zeta.
  pose proof (reachable_status_inv evs Hc) as Hi. fold s in Hi.
  clearbody s. destruct_sys s. subst.
  unfold step, handle, hub_state. unfold_m.
  rewrite (bool_decide_eq_true_2 _ Hlt). unfold_m.
  rewrite length_alter, (bool_decide_eq_true_2 _ Hlt). unfold_m.
  split_and!; try done. apply hub_state_alter. by rewrite length_alter.
Qed.

Lemma reconnect_round_trip_witness :
  let s := run [TypeUserId "u1"; ClickConnect; StartResolved 0] initial in
  connectionStatus (page (step (HubReconnecting 0) s)) = connecting
  ∧ page (step (HubReconnected 0) (step (HubReconnecting 0) s)) = page s.
Proof.
  destruct (reconnect_round_trip [TypeUserId "u1"; ClickConnect; StartResolved 0] 0)
    as (Hst & _ & _ & _ & Hpage & _); [reflexivity | simpl; lia |].
  split; [exact Hst | exact Hpage].
Defined.

(** ** Unmounting *)



(** ** Connect, then disconnect *)

Lemma step_ClickConnect s :
  connect_button_enabled (page s) = true →
  step ClickConnect s = exec connectToHub s.
Proof.
  intros H. destruct_sys s. unfold step, handle. unfold_m.
  unfold connect_button_enabled in H. simpl in H. by rewrite H.
Qed.

Lemma step_ClickDisconnect s h :
  isConnected (page s) = true → connectionRef (page s) = Some h →
  step ClickDisconnect s = exec (stop h) s.
Proof.
  intros H Href. destruct_sys s. subst.
  unfold step, handle, disconnectFromHub. by unfold_m.
Qed.

Lemma step_StopResolved h s :
  h ∈ stopping s →
  step (StopResolved h) s
  = exec (resume_stop h;; set_hub_state h SignalR.Disconnected;;
          disconnectFromHub_resolved) s.
Proof.
  intros Hin. destruct_sys s. unfold step, handle. unfold_m.
  by rewrite (bool_decide_eq_true_2 _ Hin).
Qed.

Lemma elem_of_snoc (l : list Handle) x : x ∈ (l ++ [x])%list.
Proof. apply elem_of_app. right. by apply list_elem_of_singleton. Qed.

Lemma remove_one_snoc (l : list Handle) x : x ∉ l → remove_one x (l ++ [x]) = l.
Proof.
  induction l as [|y l IH]; simpl; intros Hx.
  - by rewrite decide_True.
  - apply not_elem_of_cons in Hx as [Hne Hx].
    rewrite decide_False by done. by rewrite IH.
Qed.

(** X16.  In any run, from a page that is disconnected, holds no handle and
    has an identity that is not blank: a click on Connect, the handshake
    succeeding, a click on Disconnect and the [stop()] resolving bring the
    page back to what it was, buffer and inputs included.  The connection
    built on the way ends in the [Disconnected] state, no [connectToHub]
    call is left waiting, and no alert was shown. *)
Theorem connect_disconnect_round_trip (evs : list Event) :
  let s := run evs initial in
  connectionStatus (page s) = disconnected →
  isConnected (page s) = false →
  connectionRef (page s) = None →
  JsString.blank (userId (page s)) = false →
  let h := length (hubs s) in
  let s' := run [ClickConnect; StartResolved h; ClickDisconnect; StopResolved h] s in
  page s' = page s
  ∧ hub_state h s' = Some SignalR.Disconnected
  ∧ length (hubs s') = S (length (hubs s))
  ∧ starting s' = starting s
  ∧ alerts s' = alerts s.
Proof.
  intros s Hst Hic Href Hid. cbv zeta.
  pose proof (run_connection_ref evs initial eq_refl) as Hcon. fold s in Hcon.
  destruct (reachable_handles_inv evs) as (_ & Hsta & _). fold s in Hsta.
  assert (length (hubs s) ∉ starting s) as Hfresh
    by (intros Hin; apply Hsta in Hin; lia).
  clear Hsta. clearbody s. cbn [run].
  rewrite (step_ClickConnect s)
    by (unfold connect_button_enabled; by rewrite Hic, Hst).
  rewrite (connectToHub_not_blank s Hid).
  destruct_sys s. subst. unfold_m.
  rewrite step_StartResolved by apply elem_of_snoc. unfold_m.
  rewrite (step_ClickDisconnect _ (length hbs)) by done. unfold_m.
  rewrite step_StopResolved by apply elem_of_snoc. unfold_m.
  rewrite remove_one_snoc by done. unfold hub_state. unfold_m.
  split_and!; try done.
  - apply hub_state_alter. rewrite !length_alter, length_app. simpl. lia.
  - rewrite !length_alter, length_app. simpl. lia.
Qed.

Lemma connect_disconnect_round_trip_witness :
  let s := run [TypeUserId "u1"] initial in
  page (run [ClickConnect; StartResolved 0; ClickDisconnect; StopResolved 0] s)
  = page s.
Proof.
  exact (proj1 (connect_disconnect_round_trip [TypeUserId "u1"]
                  eq_refl eq_refl eq_refl eq_refl)).
Defined.

(** ** A late [finally] *)

(** X17.  The [finally] block of [disconnectFromHub] clears whatever handle
    is stored when it runs, not only the handle it asked to stop: if
    another connection was stored in the meantime, that handle is dropped
    and its connection is left in the state it was in, without a [stop()]. *)
Theorem finally_clears_any_handle (s : Sys) (h h' : Handle) (ev : Event) :
  h ∈ stopping s → connectionRef (page s) = Some h' → h' ≠ h →
  ev = StopResolved h ∨ ev = StopRejected h →
  let s' := step ev s in
  connectionRef (page s') = None
  ∧ connection (page s') = None
  ∧ connectionStatus (page s') = disconnected
  ∧ hub_state h' s' = hub_state h' s
  ∧ stopping s' = remove_one h (stopping s).
Proof.
  intros Hin Href Hne Hev. cbv zeta. destruct_sys s. subst.
  destruct Hev as [-> | ->]; unfold step, handle, hub_state; unfold_m;
    rewrite (bool_decide_eq_true_2 _ Hin); unfold_m;
    split_and!; try done.
  by rewrite list_lookup_alter_ne.
Qed.

Lemma finally_clears_any_handle_witness :
  let s := run [TypeUserId "u1"; ClickConnect; StartResolved 0; ClickDisconnect;
                Closed 0; ClickConnect; StartResolved 1] initial in
  connectionRef (page s) = Some 1
  ∧ connectionRef (page (step (StopResolved 0) s)) = None
  ∧ hub_state 1 (step (StopResolved 0) s) = Some SignalR.Connected.
Proof.
  destruct (finally_clears_any_handle
              (run [TypeUserId "u1"; ClickConnect; StartResolved 0; ClickDisconnect;
                    Closed 0; ClickConnect; StartResolved 1] initial)
              0 1 (StopResolved 0))
    as (Href & _ & _ & Hhub & _).
  { vm_compute. constructor. }
  { reflexivity. }
  { discriminate. }
  { by left. }
  split; [reflexivity|]. split; [exact Href|].
  exact (eq_trans Hhub eq_refl).
Defined.

(** ** Row keys *)

Lemma dash_free_pretty_N_go x s :
  dash_free s = true → dash_free (pretty_N_go x s) = true.
Proof.
  revert s. induction (N.lt_wf_0 x) as [x _ IH]; intros s Hs.
  assert (x = 0 ∨ 0 < x)%N as [-> | Hpos] by lia.
  - by rewrite pretty_N_go_0.
  - rewrite pretty_N_go_step by done. apply IH; [by apply N.div_lt|].
    simpl. rewrite Hs, andb_true_r.
    unfold pretty_N_char. by repeat case_match.
Qed.

Lemma dash_free_pretty (n : nat) : dash_free (pretty n) = true.
Proof.
  unfold pretty, pretty_nat, pretty, pretty_N.
  case_decide; [done|]. by apply dash_free_pretty_N_go.
Qed.

Lemma dash_free_no_dash s t u : dash_free s = true → s ≠ t +:+ "-" +:+ u.
Proof.
  revert s. induction t as [|a t IH]; intros s Hs E; subst; simpl in Hs.
  - discriminate.
  - apply andb_true_iff in Hs as [_ Hs]. by apply (IH _ Hs).
Qed.

Lemma dash_split_inj a b d1 d2 :
  dash_free d1 = true → dash_free d2 = true →
  a +:+ "-" +:+ d1 = b +:+ "-" +:+ d2 → a = b ∧ d1 = d2.
Proof.
  intros H1 H2. revert b. induction a as [|x a IH]; intros [|y b] E; simpl in E.
  - by injection E.
  - injection E as _ E. by apply dash_free_no_dash in E.
  - injection E as _ E. symmetry in E. by apply dash_free_no_dash in E.
  - injection E as -> E. destruct (IH b E) as [-> ->]. done.
Qed.

(** X18.  The keys of the rows of the list tell the rows apart: two rows
    have the same key only if they are at the same position and their ids
    are the same string, so rows at different positions never share a key,
    even when their ids are equal or contain dashes. *)
Theorem row_key_inj (id1 id2 : string) (i j : nat) :
  row_key id1 i = row_key id2 j → id1 = id2 ∧ i = j.
Proof.
  unfold row_key. intros E.
  destruct (dash_split_inj _ _ _ _ (dash_free_pretty i) (dash_free_pretty j) E)
    as [-> Hp].
  split; [done|]. by apply (inj pretty).
Qed.

Lemma row_key_inj_witness :
  row_key "m-1" 2 = "m-1-2" ∧ ("m-1" = "m-1" ∧ 2 = 2).
Proof.
  split; [reflexivity|]. apply (row_key_inj "m-1" "m-1" 2 2). reflexivity.
Defined.
